(** * Role-based access control for the project-management API

    A shallow embedding of the repository's JavaScript:
    - [app.js]: the Express application, its JSON body parser and the
      mock authentication middleware;
    - the guards of [README.md]: [hasAnyPermission] and the conditional
      guard of the project-update route;
    - the policy evaluator ([middleware/rbac.js], [config/roles.js]),
      which the repository leaves to be written and which is modelled
      here from its specification. *)

From Stdlib Require Import Floats.SpecFloat.
From stdpp Require Import base option list strings gmap.

Open Scope string_scope.

#[local] Set Warnings "-register-all,-clear-no-such-hyp".

(** ** JavaScript values *)

Module JS.

(** A value as [JSON.parse] produces it, plus [undefined].  Numbers are
    IEEE 754 doubles; an object is a finite map from field names to
    values. *)
Inductive value :=
| VUndefined
| VNull
| VBool (b : bool)
| VNum (f : spec_float)
| VStr (s : string)
| VArr (l : list value)
| VObj (o : gmap string value).

(** [ToBoolean]: the test an [if (e)] performs.  [undefined], [null],
    [false], [+0], [-0], [NaN] and the empty string are falsy; every
    array and every object is truthy, the empty ones too. *)
Definition truthy (v : value) : bool :=
  match v with
  | VUndefined | VNull => false
  | VBool b => b
  | VNum (S754_zero _) | VNum S754_nan => false
  | VNum _ => true
  | VStr s => negb (String.eqb s EmptyString)
  | VArr _ | VObj _ => true
  end.

(** [o.k] on an object parsed from JSON: the field's value, [undefined]
    when the object has no such field. *)
Definition get (o : gmap string value) (k : string) : value :=
  default VUndefined (o !! k).

End JS.

(** ** The Express request pipeline *)

Module Express.

(** [req.user], as the authentication middleware sets it. *)
Record User := mkUser { _id : string; role : string }.

(** The parts of [req] the program reads or writes.  [raw] is the body
    as received, [body] what [express.json()] made of it. *)
Record Request := mkRequest {
  raw  : string;
  body : gmap string JS.value;
  user : option User
}.

Definition set_user (u : User) (req : Request) : Request :=
  {| raw := raw req; body := body req; user := Some u |}.

Definition set_body (b : gmap string JS.value) (req : Request) : Request :=
  {| raw := raw req; body := b; user := user req |}.

(** [res.status(c).json(o)] *)
Record Response := mkResponse {
  status : nat;
  json   : gmap string JS.value
}.

(** What one middleware does with a request: call [next()] (the request
    object, possibly assigned to, goes on), call [next(err)], or answer. *)
Inductive Step :=
| Next (req : Request)
| NextErr
| Respond (res : Response).

(** [(req, res, next) => ...] *)
Definition Middleware := Request -> Step.

(** A middleware that reached a decision on the request: it called
    [next()] or it answered. *)
Definition decided (s : Step) : Prop :=
  match s with
  | Next _ | Respond _ => True
  | NextErr => False
  end.

(** What the client gets. *)
Inductive Outcome :=
| Answered (res : Response)
| Failed
| Unhandled.

(** A stack built by successive [app.use]: the middlewares run in the
    order of mounting, each on the request the one before passed on.
    After [next(err)] none of the middlewares that follow runs. *)
Fixpoint dispatch (stack : list Middleware) (req : Request) : Outcome :=
  match stack with
  | [] => Unhandled
  | m :: rest =>
      match m req with
      | Next req' => dispatch rest req'
      | NextErr => Failed
      | Respond res => Answered res
      end
  end.

(** [invoked stack req i r]: serving [req], the [i]-th middleware of
    [stack] is called, and [r] is the request it is called with. *)
Inductive invoked : list Middleware -> Request -> nat -> Request -> Prop :=
| invoked_head m rest req :
    invoked (m :: rest) req 0 req
| invoked_tail m rest req req' i r :
    m req = Next req' ->
    invoked rest req' i r ->
    invoked (m :: rest) req (S i) r.

(** A middleware that leaves [req.user] alone. *)
Definition keeps_user (m : Middleware) : Prop :=
  forall req req', m req = Next req' -> user req' = user req.

End Express.

(** ** app.js *)

Module App.
Import Express.

(** The object the mock authentication assigns to [req.user]. *)
Definition mockUser : User := {| _id := "mockUserId"; role := "DEVELOPER" |}.

(** [app.use((req, res, next) => { req.user = {...}; next(); })] *)
Definition mockAuth : Middleware :=
  fun req => Next (set_user mockUser req).

Section WithParser.

(** What [express.json()] makes of the raw body of a request: the object
    it stores in [req.body], [None] where it calls [next(err)]. *)
Variable parse : string -> option (gmap string JS.value).

(** [app.use(express.json())]: the parsed body is stored in [req.body];
    a body that does not parse goes to the error handler. *)
Definition jsonParser : Middleware :=
  fun req =>
    match parse (raw req) with
    | Some b => Next (set_body b req)
    | None => NextErr
    end.

(** The application: the two [app.use] of [app.js], then the routes,
    mounted where the file says they will be. *)
Definition app (routes : list Middleware) : list Middleware :=
  jsonParser :: mockAuth :: routes.

End WithParser.

End App.

(** ** The guards of README.md *)

Module Rbac.
Import Express.

(** A permission is a string constant of [config/roles.js]. *)
Abbreviation Permission := string.

(** An entry of [ROLES]: [{ name: ..., permissions: [...] }]. *)
Record Role := mkRole {
  name : string;
  permissions : list Permission
}.

(** The argument of [hasAnyPermission]: one permission, or an array of
    them; [Array.isArray] tells the two apart. *)
Inductive PermArg :=
| One (p : Permission)
| Many (ps : list Permission).

(** [Array.prototype.includes] on an array of strings. *)
Fixpoint includes (l : list Permission) (p : Permission) : bool :=
  match l with
  | [] => false
  | x :: l' => if String.eqb x p then true else includes l' p
  end.

(** [res.status(403).json({ message: 'Insufficient permissions' })] *)
Definition insufficient : Response :=
  {| status := 403;
     json := {[ "message" := JS.VStr "Insufficient permissions" ]} |}.

Section Guards.

(** [userRole] is free in the README's [hasAnyPermission]: the role
    entry the guard checks against comes from its context. *)
Variable userRole : Role.

(** The first lines of [hasAnyPermission]: an array argument is taken
    as it is, any other is wrapped in a one-element array. *)
Definition toArray (requiredPermissions : PermArg) : list Permission :=
  match requiredPermissions with
  | Many ps => ps
  | One p => [p]
  end.

(** [for (let permission of permissions) { if (...) return next(); }
     return res.status(403).json(...)] *)
Fixpoint anyLoop (perms : list Permission) (req : Request) : Step :=
  match perms with
  | [] => Respond insufficient
  | permission :: rest =>
      if includes (permissions userRole) permission
      then Next req
      else anyLoop rest req
  end.

(** [const hasAnyPermission = (requiredPermissions) => { ...; return
    (req, res, next) => {...} }] *)
Definition hasAnyPermission (requiredPermissions : PermArg) : Middleware :=
  let perms := toArray requiredPermissions in
  fun req => anyLoop perms req.

End Guards.

(** The guard a route builds and then calls on [(req, res, next)]. *)
Inductive GuardCall :=
| HasPermission (p : Permission)
| HasAllPermissions (ps : list Permission)
| HasAnyPermission (a : PermArg).

(** The README's guard of [PUT /api/projects/:id]:
    [if (req.body.teamMembers) hasAllPermissions(['UPDATE_PROJECT',
    'MANAGE_TEAM']) else hasPermission('UPDATE_PROJECT')]. *)
Definition updateGuard (req : Request) : GuardCall :=
  if JS.truthy (JS.get (body req) "teamMembers")
  then HasAllPermissions ["UPDATE_PROJECT"; "MANAGE_TEAM"]
  else HasPermission "UPDATE_PROJECT".

(** The field names present in a payload. *)
Definition fieldNames (payload : gmap string JS.value) : gset string :=
  dom payload.

(** The developer role the README describes, with the permission names
    its routes use. *)
Definition developer : Role :=
  {| name := "DEVELOPER";
     permissions := ["VIEW_PROJECT"; "VIEW_TASK"; "UPDATE_TASK"; "VIEW_TEAM"] |}.

End Rbac.

(** ** The policy evaluator *)

Module Policy.

Abbreviation Permission := string.
Abbreviation RoleId := string.

(** Modelled from the spec: the Role Registry of [config/roles.js],
    which is not part of the sources.  It maps each defined role
    identifier to the set of permissions the role grants. *)
Abbreviation Registry := (gmap RoleId (gset Permission)).

(** Modelled from the spec: [resolve(roleId) -> Role | NotFound]. *)
Definition resolve (reg : Registry) (r : RoleId) : option (gset Permission) :=
  reg !! r.

(** Modelled from the spec: the Principal of section 6,
    [{ subjectId, roleId }]. *)
Record Principal := mkPrincipal {
  subjectId : string;
  roleId : RoleId
}.

(** Modelled from the spec: the recursive PolicyRequirement of section
    4.4; [AnyOf] and [AllOf] hold sub-requirements, [Single] and
    [RoleExact] are the leaves. *)
Inductive Requirement :=
| Single (p : Permission)
| RoleExact (r : RoleId)
| AnyOf (cs : list Requirement)
| AllOf (cs : list Requirement).

(** The flat forms of section 3, over a set of permissions. *)
Definition AnyOfP (P : gset Permission) : Requirement :=
  AnyOf (Single <$> elements P).

Definition AllOfP (P : gset Permission) : Requirement :=
  AllOf (Single <$> elements P).

(** Modelled from the spec: the reasons a Deny carries (sections 4.3
    and 7). *)
Inductive Reason :=
| UnknownRole
| MissingPermission (p : Permission)
| WrongRole (required actual : RoleId)
| NoneSatisfied
| NotAllSatisfied.

Definition reasonText (r : Reason) : string :=
  match r with
  | UnknownRole => "unknown role"
  | MissingPermission p => "missing permission " ++ p
  | WrongRole required actual =>
      "requires role " ++ required ++ ", has role " ++ actual
  | NoneSatisfied => "none of the alternatives is satisfied"
  | NotAllSatisfied => "not all of the requirements are satisfied"
  end.

(** Modelled from the spec: [Allow] or [Deny(reason, missing)]. *)
Inductive Verdict :=
| Allow
| Deny (reason : Reason) (missing : gset Permission).

Definition isAllow (v : Verdict) : bool :=
  match v with
  | Allow => true
  | Deny _ _ => false
  end.

Definition missingOf (v : Verdict) : gset Permission :=
  match v with
  | Allow => ∅
  | Deny _ m => m
  end.

(** Modelled from the spec: the requirement's full permission set. *)
Fixpoint fullPermissions (q : Requirement) : gset Permission :=
  match q with
  | Single p => {[ p ]}
  | RoleExact _ => ∅
  | AnyOf cs => ⋃ (map fullPermissions cs)
  | AllOf cs => ⋃ (map fullPermissions cs)
  end.

(** Modelled from the spec: step 2 of the algorithm of section 4.3, for
    a principal whose role [rid] resolved to the permissions [perms]. *)
Fixpoint check (rid : RoleId) (perms : gset Permission) (q : Requirement)
  : Verdict :=
  match q with
  | Single p =>
      if decide (p ∈ perms) then Allow
      else Deny (MissingPermission p) {[ p ]}
  | RoleExact r =>
      if decide (rid = r) then Allow
      else Deny (WrongRole r rid) ∅
  | AnyOf cs =>
      if existsb isAllow (map (check rid perms) cs) then Allow
      else Deny NoneSatisfied (⋃ (map fullPermissions cs))
  | AllOf cs =>
      let vs := map (check rid perms) cs in
      if forallb isAllow vs then Allow
      else Deny NotAllSatisfied (⋃ (map missingOf vs))
  end.

(** Modelled from the spec: [evaluate(principal, requirement)], step 1
    (resolve the role, Deny when it does not resolve) then step 2. *)
Definition evaluate (reg : Registry) (pr : Principal) (q : Requirement)
  : Verdict :=
  match resolve reg (roleId pr) with
  | None => Deny UnknownRole (fullPermissions q)
  | Some perms => check (roleId pr) perms q
  end.

(** The roles of the README's first task, with the permission names
    its routes use. *)
Definition projectPermissions : gset Permission :=
  {[ "CREATE_PROJECT"; "VIEW_PROJECT"; "UPDATE_PROJECT"; "DELETE_PROJECT" ]}.

Definition taskPermissions : gset Permission :=
  {[ "CREATE_TASK"; "VIEW_TASK"; "UPDATE_TASK"; "DELETE_TASK" ]}.

Definition teamPermissions : gset Permission :=
  {[ "VIEW_TEAM"; "MANAGE_TEAM" ]}.

Definition developerPermissions : gset Permission :=
  {[ "VIEW_PROJECT"; "VIEW_TASK"; "UPDATE_TASK"; "VIEW_TEAM" ]}.

Definition readmeRegistry : Registry :=
  {[ "ADMIN" := projectPermissions ∪ taskPermissions ∪ teamPermissions;
     "PROJECT_MANAGER" :=
       projectPermissions ∪ taskPermissions ∪ teamPermissions;
     "TEAM_LEAD" := {[ "VIEW_PROJECT" ]} ∪ taskPermissions ∪ {[ "VIEW_TEAM" ]};
     "DEVELOPER" := developerPermissions ]}.

(** Scenario D: the requirement of project creation. *)
Definition createRequirement : Requirement :=
  AnyOf [RoleExact "PROJECT_MANAGER";
         AllOf [Single "CREATE_PROJECT"; Single "MANAGE_TEAM"]].

End Policy.

(** ** From the guards of a route to policy requirements *)

Module Composer.
Import Rbac Policy.

(** The requirement a guard call stands for. *)
Definition requirementOf (g : GuardCall) : Requirement :=
  match g with
  | HasPermission p => Single p
  | HasAllPermissions ps => AllOf (Single <$> ps)
  | HasAnyPermission a => AnyOf (Single <$> toArray a)
  end.

(** The requirement selected for a project update with this payload. *)
Definition selectUpdate (payload : gmap string JS.value) : Requirement :=
  requirementOf
    (updateGuard {| Express.raw := "{}"; Express.body := payload;
                    Express.user := None |}).

(** The two update payloads of the README's tests, and the second one
    with [null] for the team members. *)
Definition regularUpdate : gmap string JS.value :=
  {[ "title" := JS.VStr "Updated Title"; "status" := JS.VStr "active" ]}.

Definition teamUpdate : gmap string JS.value :=
  {[ "title" := JS.VStr "Updated Title";
     "teamMembers" := JS.VArr [JS.VStr "userId1"; JS.VStr "userId2"] ]}.

Definition nullTeamUpdate : gmap string JS.value :=
  {[ "title" := JS.VStr "Updated Title"; "teamMembers" := JS.VNull ]}.

End Composer.

(** * Properties *)

(** ** The request pipeline of app.js *)

Module AppFacts.
Import Express App.

Lemma invoked_keeps_user stack req i r :
  Forall keeps_user stack ->
  invoked stack req i r ->
  user r = user req.
Proof.
  intros Hall Hinv. induction Hinv as [m rest req | m rest req req' i r Hm Hrest IH].
  - reflexivity.
  - inversion Hall as [| ? ? Hk Hall']; subst.
    rewrite (IH Hall'). exact (Hk _ _ Hm).
Qed.

Lemma mockAuth_sets_user req req' :
  mockAuth req = Next req' -> user req' = Some mockUser.
Proof. unfold mockAuth. intros [= <-]. reflexivity. Qed.

(** Every middleware mounted after the mock authentication is called
    with a request that went through it. *)
Lemma invoked_after_mockAuth parse routes req i r :
  invoked (app parse routes) req (2 + i) r ->
  exists req1, user req1 = Some mockUser /\ invoked routes req1 i r.
Proof.
  unfold app. intros H.
  inversion H as [| ? ? ? req0 ? ? _ H1]; subst.
  inversion H1 as [| ? ? ? req1 ? ? Hm H2]; subst.
  exists req1. split; [exact (mockAuth_sets_user _ _ Hm) | exact H2].
Qed.

(** The first middleware of the routes is called with the mock user,
    whatever the routes are. *)
Lemma first_route_sees_mock_user parse routes req r :
  invoked (app parse routes) req 2 r -> user r = Some mockUser.
Proof.
  intros H. destruct (invoked_after_mockAuth parse routes req 0 r H)
    as (req1 & Hu & Hr).
  inversion Hr; subst. exact Hu.
Qed.

(** C9: every request that reaches a route handler carries, in
    [req.user], the fixed principal the mock authentication assigned:
    [{ _id: 'mockUserId', role: 'DEVELOPER' }].  No request reaches a
    route unauthenticated, and the role a permission check sees is
    always DEVELOPER.  The routes are those mounted after the two
    [app.use] of [app.js]; they read [req.user] and do not assign it. *)
Theorem mock_user_reaches_every_route parse routes req i r :
  Forall keeps_user routes ->
  invoked (app parse routes) req (2 + i) r ->
  user r = Some mockUser
  /\ user r <> None
  /\ role <$> user r = Some "DEVELOPER".
Proof.
  intros Hkeep Hinv.
  destruct (invoked_after_mockAuth _ _ _ _ _ Hinv) as (req1 & Hu & Hr).
  pose proof (invoked_keeps_user _ _ _ _ Hkeep Hr) as Heq.
  rewrite Heq, Hu. repeat split; discriminate.
Qed.

End AppFacts.

(** ** The guards of README.md *)

Module RbacFacts.
Import Express Rbac.

Lemma includes_elem_of l p : includes l p = true <-> p ∈ l.
Proof.
  induction l as [| x l IH]; simpl.
  - split; [discriminate | intros H; inversion H].
  - destruct (String.eqb_spec x p) as [-> | Hne].
    + split; [intros _; left | reflexivity].
    + rewrite IH. split.
      * intros H. by right.
      * intros H. inversion H; subst; [contradiction | assumption].
Qed.

(** The loop has two exits only: [next()] with the request untouched,
    or the 403 answer. *)
Lemma anyLoop_cases userRole ps req :
  anyLoop userRole ps req = Next req
  \/ anyLoop userRole ps req = Respond insufficient.
Proof.
  induction ps as [| p ps IH]; simpl.
  - by right.
  - destruct (includes (permissions userRole) p); [by left | exact IH].
Qed.

Lemma anyLoop_next userRole ps req :
  anyLoop userRole ps req = Next req
  <-> exists p, p ∈ ps /\ p ∈ permissions userRole.
Proof.
  induction ps as [| q ps IH]; simpl.
  - split; [discriminate | intros (p & Hp & _); inversion Hp].
  - destruct (includes (permissions userRole) q) eqn:Hq.
    + split; [intros _ | reflexivity].
      exists q. split; [left | by apply includes_elem_of].
    + rewrite IH. split.
      * intros (p & Hp & Hr). exists p. split; [by right | assumption].
      * intros (p & Hp & Hr). inversion Hp; subst.
        -- apply includes_elem_of in Hr. congruence.
        -- by exists p.
Qed.

(** The guard never looks at [req.user], nor at anything else of the
    request. *)
Lemma anyLoop_request_blind userRole ps req1 req2 :
  match anyLoop userRole ps req1 with
  | Next _ => anyLoop userRole ps req2 = Next req2
  | s => anyLoop userRole ps req2 = s
  end.
Proof.
  induction ps as [| p ps IH]; simpl; [reflexivity |].
  destruct (includes (permissions userRole) p); [reflexivity | exact IH].
Qed.

Lemma hasAnyPermission_keeps_user userRole a :
  keeps_user (hasAnyPermission userRole a).
Proof.
  intros req req' H. unfold hasAnyPermission in H.
  destruct (anyLoop_cases userRole (toArray a) req) as [E | E];
    rewrite E in H; [| discriminate].
  by injection H as <-.
Qed.

(** C3, as the code has it: for every role and every non-empty list of
    candidate permissions, [hasAnyPermission] lets the request through
    if and only if the role holds at least one of the candidates;
    otherwise it answers with status 403 and the fixed body
    [{ message: 'Insufficient permissions' }], which lists none of the
    candidates. *)
Theorem hasAnyPermission_allow_iff userRole a req :
  toArray a <> [] ->
  (hasAnyPermission userRole a req = Next req
   <-> exists p, p ∈ toArray a /\ p ∈ permissions userRole)
  /\ (hasAnyPermission userRole a req <> Next req ->
      hasAnyPermission userRole a req = Respond insufficient
      /\ status insufficient = 403
      /\ json insufficient
         = {[ "message" := JS.VStr "Insufficient permissions" ]}).
Proof.
  intros _. unfold hasAnyPermission. split.
  - apply anyLoop_next.
  - intros Hn. destruct (anyLoop_cases userRole (toArray a) req) as [E | E].
    + contradiction.
    + by rewrite E.
Qed.

Lemma hasAnyPermission_allow_iff_witness :
  toArray (Many ["CREATE_PROJECT"; "MANAGE_TEAM"]) <> []
  /\ (hasAnyPermission developer (Many ["CREATE_PROJECT"; "MANAGE_TEAM"])
        {| raw := "{}"; body := ∅; user := Some App.mockUser |}
      = Respond insufficient).
Proof.
  split; [discriminate |].
  apply (hasAnyPermission_allow_iff developer
           (Many ["CREATE_PROJECT"; "MANAGE_TEAM"])
           {| raw := "{}"; body := ∅; user := Some App.mockUser |});
    [discriminate |].
  vm_compute. discriminate.
Defined.

(** C3 as stated does not hold: the answer of a denying
    [hasAnyPermission] is the same whatever the candidates were, so no
    reading of the answer gives back the candidate set.  The role below
    is denied both ["CREATE_PROJECT"] and ["MANAGE_TEAM"], with one and
    the same answer. *)
Lemma hasAnyPermission_reports_no_candidates :
  ~ exists report : Response -> gset Permission,
      forall userRole ps req res,
        ps <> [] ->
        hasAnyPermission userRole (Many ps) req = Respond res ->
        report res = list_to_set ps.
Proof.
  intros (report & H).
  pose (req := {| raw := "{}"; body := ∅; user := Some App.mockUser |}).
  assert (H1 : report insufficient = list_to_set ["CREATE_PROJECT"])
    by (apply (H developer _ req); [discriminate | reflexivity]).
  assert (H2 : report insufficient = list_to_set ["MANAGE_TEAM"])
    by (apply (H developer _ req); [discriminate | reflexivity]).
  rewrite H1 in H2.
  assert (Hin : "CREATE_PROJECT" ∈ (list_to_set ["MANAGE_TEAM"] : gset string))
    by (rewrite <- H2; set_solver).
  set_solver.
Qed.

(** C7 as stated does not hold: [hasAnyPermission([])] is built without
    an error, and on this request it is evaluated and denies. *)
Lemma hasAnyPermission_empty_counterexample :
  hasAnyPermission developer (Many [])
    {| raw := "{}"; body := ∅; user := Some App.mockUser |}
  = Respond insufficient
  /\ ~ (forall userRole req,
          ~ decided (hasAnyPermission userRole (Many []) req)).
Proof.
  split; [reflexivity |].
  intros H.
  apply (H developer {| raw := "{}"; body := ∅; user := Some App.mockUser |}).
  exact I.
Qed.

(** C7, as the code has it: [hasAnyPermission] takes the empty array
    like any other, without a check when the guard is built; the guard
    it returns is evaluated on every request and denies each one with
    the 403 answer, whatever the role.  It never lets a request
    through. *)
Theorem hasAnyPermission_empty_denies userRole req :
  hasAnyPermission userRole (Many []) req = Respond insufficient
  /\ hasAnyPermission userRole (Many []) req <> Next req.
Proof. split; [reflexivity | discriminate]. Qed.

(** C10: [hasAnyPermission(p)] and [hasAnyPermission([p])] are the same
    guard: on every request, for every role, they take the same
    decision and give the same answer. *)
Theorem hasAnyPermission_single_as_array userRole p req :
  toArray (One p) = toArray (Many [p])
  /\ hasAnyPermission userRole (One p) req
     = hasAnyPermission userRole (Many [p]) req.
Proof. split; reflexivity. Qed.

(** A route stack for the request pipeline: a permission guard, then a
    handler that answers. *)
Lemma mock_user_reaches_every_route_witness :
  let parse := fun _ : string => Some (∅ : gmap string JS.value) in
  let routes :=
    [hasAnyPermission developer (One "VIEW_PROJECT");
     fun _ => Respond {| status := 200; json := ∅ |}] in
  let req := {| raw := "{}"; body := ∅; user := None |} in
  let seen := {| raw := "{}"; body := ∅; user := Some App.mockUser |} in
  Forall keeps_user routes
  /\ invoked (App.app parse routes) req (2 + 1) seen
  /\ user seen = Some App.mockUser.
Proof.
  intros parse routes req seen.
  assert (Hkeep : Forall keeps_user routes).
  { repeat constructor.
    - apply hasAnyPermission_keeps_user.
    - intros ? ? [=]. }
  assert (Hinv : invoked (App.app parse routes) req (2 + 1) seen).
  { eapply invoked_tail; [reflexivity |].
    eapply invoked_tail; [reflexivity |].
    eapply invoked_tail; [reflexivity |].
    apply invoked_head. }
  split; [exact Hkeep |]. split; [exact Hinv |].
  exact (proj1 (AppFacts.mock_user_reaches_every_route
                  parse routes req 1 seen Hkeep Hinv)).
Defined.

End RbacFacts.

(** ** The guard of the update route *)

Module ComposerFacts.
Import Express Rbac Policy Composer.

(** The selection is total, with two outcomes. *)
Lemma selectUpdate_cases payload :
  selectUpdate payload = AllOf [Single "UPDATE_PROJECT"; Single "MANAGE_TEAM"]
  \/ selectUpdate payload = Single "UPDATE_PROJECT".
Proof.
  unfold selectUpdate, updateGuard; simpl.
  destruct (JS.truthy _); [by left | by right].
Qed.

(** A payload without the field selects the single permission. *)
Lemma selectUpdate_absent payload :
  "teamMembers" ∉ fieldNames payload ->
  selectUpdate payload = Single "UPDATE_PROJECT".
Proof.
  unfold fieldNames. intros H. apply not_elem_of_dom in H.
  unfold selectUpdate, updateGuard, JS.get; simpl. by rewrite H.
Qed.

(** A payload whose field holds a truthy value selects both. *)
Lemma selectUpdate_truthy payload v :
  payload !! "teamMembers" = Some v ->
  JS.truthy v = true ->
  selectUpdate payload = AllOf [Single "UPDATE_PROJECT"; Single "MANAGE_TEAM"].
Proof.
  intros H Hv. unfold selectUpdate, updateGuard, JS.get; simpl.
  by rewrite H; simpl; rewrite Hv.
Qed.

Lemma selectUpdate_falsy payload v :
  payload !! "teamMembers" = Some v ->
  JS.truthy v = false ->
  selectUpdate payload = Single "UPDATE_PROJECT".
Proof.
  intros H Hv. unfold selectUpdate, updateGuard, JS.get; simpl.
  by rewrite H; simpl; rewrite Hv.
Qed.

(** C1, at the payload [{ title: ..., teamMembers: null }]: it has the
    field [teamMembers], and the same field names as the README's team
    update, yet the guard selects the single permission
    UPDATE_PROJECT for it and both permissions for the team update.
    The test [if (req.body.teamMembers)] reads the value of the field,
    not its presence. *)
Theorem updateGuard_null_teamMembers :
  "teamMembers" ∈ fieldNames nullTeamUpdate
  /\ fieldNames nullTeamUpdate = fieldNames teamUpdate
  /\ selectUpdate nullTeamUpdate = Single "UPDATE_PROJECT"
  /\ selectUpdate teamUpdate
     = AllOf [Single "UPDATE_PROJECT"; Single "MANAGE_TEAM"].
Proof.
  split; [| split; [| split]].
  - unfold fieldNames, nullTeamUpdate. apply elem_of_dom.
    exists JS.VNull. reflexivity.
  - unfold fieldNames, nullTeamUpdate, teamUpdate.
    rewrite !dom_insert_L. reflexivity.
  - apply (selectUpdate_falsy _ JS.VNull); reflexivity.
  - eapply selectUpdate_truthy; reflexivity.
Qed.

End ComposerFacts.

(** ** The policy evaluator *)

Module PolicyFacts.
Import Policy.

Section Resolved.

Variables (rid : RoleId) (perms : gset Permission).

Lemma check_single_allow p :
  isAllow (check rid perms (Single p)) = bool_decide (p ∈ perms).
Proof.
  simpl. destruct (decide (p ∈ perms)) as [H | H].
  - by rewrite bool_decide_eq_true_2.
  - by rewrite bool_decide_eq_false_2.
Qed.

Lemma check_single_missing p :
  missingOf (check rid perms (Single p)) = {[ p ]} ∖ perms.
Proof.
  simpl. destruct (decide (p ∈ perms)); simpl; set_solver.
Qed.

(** Every clause of a flat [AllOf] allows: the role holds them all. *)
Lemma all_flat_allow (l : list Permission) :
  forallb isAllow (map (check rid perms) (Single <$> l)) = true
  <-> forall p, p ∈ l -> p ∈ perms.
Proof.
  induction l as [| q l IH].
  - simpl. split; [intros _ p Hp; inversion Hp | reflexivity].
  - change (forallb isAllow (map (check rid perms) (Single <$> q :: l)))
      with (isAllow (check rid perms (Single q))
            && forallb isAllow (map (check rid perms) (Single <$> l))).
    rewrite check_single_allow, andb_true_iff, bool_decide_eq_true, IH.
    split.
    + intros [Hq Hl] p Hp. inversion Hp; subst; auto.
    + intros H. split; [apply H; left | intros p Hp; apply H; by right].
Qed.

(** Some clause of a flat [AnyOf] allows: the role holds one of them. *)
Lemma any_flat_allow (l : list Permission) :
  existsb isAllow (map (check rid perms) (Single <$> l)) = true
  <-> exists p, p ∈ l /\ p ∈ perms.
Proof.
  induction l as [| q l IH].
  - simpl. split; [discriminate | intros (p & Hp & _); inversion Hp].
  - change (existsb isAllow (map (check rid perms) (Single <$> q :: l)))
      with (isAllow (check rid perms (Single q))
            || existsb isAllow (map (check rid perms) (Single <$> l))).
    rewrite check_single_allow, orb_true_iff, bool_decide_eq_true, IH.
    split.
    + intros [Hq | (p & Hp & Hin)].
      * exists q. split; [left | assumption].
      * exists p. split; [by right | assumption].
    + intros (p & Hp & Hin). inversion Hp; subst; [by left | right; by exists p].
Qed.

(** What the denied clauses of a flat [AllOf] report, together. *)
Lemma all_flat_missing (l : list Permission) :
  ⋃ (map missingOf (map (check rid perms) (Single <$> l)))
  = list_to_set l ∖ perms.
Proof.
  induction l as [| q l IH].
  - simpl. set_solver.
  - change (⋃ map missingOf (map (check rid perms) (Single <$> q :: l)))
      with (missingOf (check rid perms (Single q))
            ∪ ⋃ map missingOf (map (check rid perms) (Single <$> l))).
    rewrite check_single_missing, IH. simpl. set_solver.
Qed.

End Resolved.

Lemma fullPermissions_flat (l : list Permission) :
  ⋃ (map fullPermissions (Single <$> l)) = list_to_set l.
Proof.
  induction l as [| q l IH]; [reflexivity |].
  change (⋃ map fullPermissions (Single <$> q :: l))
    with ({[ q ]} ∪ ⋃ map fullPermissions (Single <$> l)).
  by rewrite IH.
Qed.

(** The full permission set of a flat requirement is its set. *)
Lemma fullPermissions_AnyOfP P : fullPermissions (AnyOfP P) = P.
Proof.
  unfold AnyOfP; simpl. rewrite fullPermissions_flat.
  apply list_to_set_elements_L.
Qed.

Lemma fullPermissions_AllOfP P : fullPermissions (AllOfP P) = P.
Proof.
  unfold AllOfP; simpl. rewrite fullPermissions_flat.
  apply list_to_set_elements_L.
Qed.

Lemma evaluate_resolved reg pr perms q :
  reg !! roleId pr = Some perms ->
  evaluate reg pr q = check (roleId pr) perms q.
Proof. intros H. unfold evaluate, resolve. by rewrite H. Qed.

(** A flat [AllOf] on a resolved role, in closed form. *)
Lemma check_AllOfP rid perms P :
  check rid perms (AllOfP P)
  = if decide (P ⊆ perms) then Allow else Deny NotAllSatisfied (P ∖ perms).
Proof.
  unfold AllOfP; simpl.
  rewrite all_flat_missing, list_to_set_elements_L.
  destruct (forallb _ _) eqn:E.
  - pose proof (proj1 (all_flat_allow _ _ _) E) as Hall.
    rewrite decide_True; [reflexivity |].
    intros p Hp. apply Hall. by apply elem_of_elements.
  - rewrite decide_False; [reflexivity |].
    intros Hsub. apply not_true_iff_false in E. apply E.
    apply all_flat_allow. intros p Hp. apply Hsub. by apply elem_of_elements.
Qed.

(** A flat [AnyOf] on a resolved role, in closed form. *)
Lemma check_AnyOfP rid perms P :
  check rid perms (AnyOfP P)
  = if decide (P ∩ perms ≠ ∅) then Allow else Deny NoneSatisfied P.
Proof.
  unfold AnyOfP; simpl.
  rewrite fullPermissions_flat, list_to_set_elements_L.
  destruct (existsb _ _) eqn:E.
  - destruct (proj1 (any_flat_allow _ _ _) E) as (p & Hp & Hin).
    apply elem_of_elements in Hp.
    rewrite decide_True; [reflexivity | set_solver].
  - rewrite decide_False; [reflexivity |].
    intros Hne. apply not_true_iff_false in E. apply E.
    apply any_flat_allow.
    destruct (set_choose_L _ Hne) as (p & Hp).
    exists p. rewrite elem_of_elements. set_solver.
Qed.

(** C2: for a role of the registry and a non-empty set [P] of
    permissions, [AllOf(P)] is allowed if and only if the role holds
    every permission of [P]; when it is denied, the missing set is
    exactly [P] minus the role's permissions: it is not empty, and it is
    not the whole of [P] as soon as the role holds one of them. *)
Theorem allOf_allow_iff_subset reg R perms subj (P : gset Permission) :
  reg !! R = Some perms ->
  P ≠ ∅ ->
  (evaluate reg (mkPrincipal subj R) (AllOfP P) = Allow <-> P ⊆ perms)
  /\ (forall reason missing,
        evaluate reg (mkPrincipal subj R) (AllOfP P) = Deny reason missing ->
        missing = P ∖ perms
        /\ missing ≠ ∅
        /\ (P ∩ perms ≠ ∅ -> missing ≠ P)).
Proof.
  intros Hres _.
  rewrite (evaluate_resolved reg _ perms) by exact Hres.
  rewrite check_AllOfP. destruct (decide (P ⊆ perms)) as [Hsub | Hsub].
  - split; [tauto | discriminate].
  - split; [split; [discriminate | contradiction] |].
    intros reason missing [= _ <-].
    split; [reflexivity |]. split; [| set_solver].
    intros He. apply Hsub. set_solver.
Qed.

Lemma allOf_allow_iff_subset_witness :
  readmeRegistry !! "DEVELOPER" = Some developerPermissions
  /\ ({[ "UPDATE_PROJECT"; "MANAGE_TEAM" ]} : gset Permission) ≠ ∅
  /\ (evaluate readmeRegistry (mkPrincipal "mockUserId" "DEVELOPER")
        (AllOfP {[ "UPDATE_PROJECT"; "MANAGE_TEAM" ]}) = Allow
      <-> {[ "UPDATE_PROJECT"; "MANAGE_TEAM" ]} ⊆ developerPermissions).
Proof.
  assert (Hres : readmeRegistry !! "DEVELOPER" = Some developerPermissions)
    by (vm_compute; reflexivity).
  assert (Hne : ({[ "UPDATE_PROJECT"; "MANAGE_TEAM" ]} : gset Permission) ≠ ∅)
    by (apply (non_empty_inhabited_L "UPDATE_PROJECT"); set_solver).
  split; [exact Hres |]. split; [exact Hne |].
  exact (proj1 (allOf_allow_iff_subset readmeRegistry "DEVELOPER"
                  developerPermissions "mockUserId" _ Hres Hne)).
Defined.

(** C4: for a role of the registry and a permission [p], [Single(p)] is
    allowed if and only if the role holds [p]; when it is denied, the
    reason is "missing permission p" and the missing set is [{p}]. *)
Theorem single_allow_iff_member reg R perms subj p :
  reg !! R = Some perms ->
  (evaluate reg (mkPrincipal subj R) (Single p) = Allow <-> p ∈ perms)
  /\ (forall reason missing,
        evaluate reg (mkPrincipal subj R) (Single p) = Deny reason missing ->
        reason = MissingPermission p
        /\ reasonText reason = "missing permission " ++ p
        /\ missing = {[ p ]}).
Proof.
  intros Hres.
  rewrite (evaluate_resolved reg _ perms) by exact Hres.
  simpl. destruct (decide (p ∈ perms)) as [Hin | Hin].
  - split; [tauto | discriminate].
  - split; [split; [discriminate | contradiction] |].
    by intros reason missing [= <- <-].
Qed.

Lemma single_allow_iff_member_witness :
  readmeRegistry !! "DEVELOPER" = Some developerPermissions
  /\ (evaluate readmeRegistry (mkPrincipal "mockUserId" "DEVELOPER")
        (Single "UPDATE_PROJECT") = Allow
      <-> "UPDATE_PROJECT" ∈ developerPermissions).
Proof.
  assert (Hres : readmeRegistry !! "DEVELOPER" = Some developerPermissions)
    by (vm_compute; reflexivity).
  split; [exact Hres |].
  exact (proj1 (single_allow_iff_member readmeRegistry "DEVELOPER"
                  developerPermissions "mockUserId" "UPDATE_PROJECT" Hres)).
Defined.

(** C8: whatever the requirement, a principal whose role does not
    resolve in the registry is denied, with the reason "unknown role"
    and the requirement's full permission set as the missing set: [{p}]
    for [Single(p)], [P] for [AnyOf(P)] and for [AllOf(P)].  The
    evaluation returns this verdict, and never [Allow]. *)
Theorem unknown_role_denied reg pr q :
  reg !! roleId pr = None ->
  evaluate reg pr q = Deny UnknownRole (fullPermissions q)
  /\ reasonText UnknownRole = "unknown role"
  /\ evaluate reg pr q <> Allow
  /\ (forall p, q = Single p -> evaluate reg pr q = Deny UnknownRole {[ p ]})
  /\ (forall P, q = AnyOfP P \/ q = AllOfP P ->
        evaluate reg pr q = Deny UnknownRole P).
Proof.
  intros Hnone. unfold evaluate, resolve. rewrite Hnone.
  split; [reflexivity |]. split; [reflexivity |]. split; [discriminate |].
  split.
  - by intros p ->.
  - intros P [-> | ->].
    + by rewrite fullPermissions_AnyOfP.
    + by rewrite fullPermissions_AllOfP.
Qed.

Lemma unknown_role_denied_witness :
  readmeRegistry !! roleId (mkPrincipal "mockUserId" "GUEST") = None
  /\ evaluate readmeRegistry (mkPrincipal "mockUserId" "GUEST")
       (AllOfP {[ "UPDATE_PROJECT"; "MANAGE_TEAM" ]})
     = Deny UnknownRole
         (fullPermissions (AllOfP {[ "UPDATE_PROJECT"; "MANAGE_TEAM" ]})).
Proof.
  assert (Hnone :
    readmeRegistry !! roleId (mkPrincipal "mockUserId" "GUEST") = None)
    by (vm_compute; reflexivity).
  split; [exact Hnone |].
  exact (proj1 (unknown_role_denied readmeRegistry
                  (mkPrincipal "mockUserId" "GUEST") _ Hnone)).
Defined.

(** C5 as stated does not hold for every principal: a principal whose
    role identifier is PROJECT_MANAGER, evaluated against a registry
    that does not define that role, is denied [RoleExact(PROJECT_MANAGER)]
    although the identifiers are equal; the role is resolved first. *)
Lemma roleExact_unresolved_counterexample :
  ~ (forall reg pr r,
       evaluate reg pr (RoleExact r) = Allow <-> roleId pr = r).
Proof.
  intros H.
  destruct (H ∅ (mkPrincipal "mockUserId" "PROJECT_MANAGER") "PROJECT_MANAGER")
    as [_ Habs].
  specialize (Habs eq_refl). discriminate Habs.
Qed.

(** Scenario D: the developer who holds CREATE_PROJECT only is denied
    project creation; the role clause fails on the role mismatch and the
    permission clause on the missing MANAGE_TEAM. *)
Lemma createRequirement_developer_denied (reg : Registry) subj :
  let reg' := <[ "DEVELOPER" := {[ "CREATE_PROJECT" ]} ]> reg in
  let pr := mkPrincipal subj "DEVELOPER" in
  evaluate reg' pr (RoleExact "PROJECT_MANAGER")
  = Deny (WrongRole "PROJECT_MANAGER" "DEVELOPER") ∅
  /\ evaluate reg' pr (AllOf [Single "CREATE_PROJECT"; Single "MANAGE_TEAM"])
     = Deny NotAllSatisfied {[ "MANAGE_TEAM" ]}
  /\ exists missing, evaluate reg' pr createRequirement
                    = Deny NoneSatisfied missing.
Proof.
  intros reg' pr. unfold evaluate, resolve, reg', pr; simpl.
  rewrite lookup_insert_eq.
  split; [| split].
  - vm_compute. reflexivity.
  - vm_compute. reflexivity.
  - eexists. vm_compute. reflexivity.
Qed.

(** C5, for principals whose role resolves: [RoleExact(r)] is allowed
    if and only if the principal's role identifier equals [r], and the
    verdict is the same whatever permissions the registry gives the
    role.  Consequently the DEVELOPER whose permissions are exactly
    [{CREATE_PROJECT}] is denied the requirement
    [AnyOf({RoleExact(PROJECT_MANAGER),
            AllOf({CREATE_PROJECT, MANAGE_TEAM})})]. *)
Theorem roleExact_allow_iff_same_role (reg : Registry) pr r perms :
  reg !! roleId pr = Some perms ->
  (evaluate reg pr (RoleExact r) = Allow <-> roleId pr = r)
  /\ (forall perms' : gset Permission,
        evaluate (<[ roleId pr := perms' ]> reg) pr (RoleExact r)
        = evaluate reg pr (RoleExact r))
  /\ (forall subj, exists reason missing,
        evaluate (<[ "DEVELOPER" := {[ "CREATE_PROJECT" ]} ]> reg)
          (mkPrincipal subj "DEVELOPER") createRequirement
        = Deny reason missing).
Proof.
  intros Hres. split; [| split].
  - rewrite (evaluate_resolved reg _ perms) by exact Hres.
    simpl. destruct (decide (roleId pr = r)); split; try done.
  - intros perms'.
    rewrite (evaluate_resolved reg _ perms) by exact Hres.
    rewrite (evaluate_resolved _ _ perms') by apply lookup_insert_eq.
    reflexivity.
  - intros subj.
    destruct (createRequirement_developer_denied reg subj) as (_ & _ & m & Hm).
    by exists NoneSatisfied, m.
Qed.

Lemma roleExact_allow_iff_same_role_witness :
  readmeRegistry !! roleId (mkPrincipal "mockUserId" "DEVELOPER")
  = Some developerPermissions
  /\ (evaluate readmeRegistry (mkPrincipal "mockUserId" "DEVELOPER")
        (RoleExact "PROJECT_MANAGER") = Allow
      <-> roleId (mkPrincipal "mockUserId" "DEVELOPER") = "PROJECT_MANAGER").
Proof.
  assert (Hres :
    readmeRegistry !! roleId (mkPrincipal "mockUserId" "DEVELOPER")
    = Some developerPermissions) by (vm_compute; reflexivity).
  split; [exact Hres |].
  exact (proj1 (roleExact_allow_iff_same_role readmeRegistry
                  (mkPrincipal "mockUserId" "DEVELOPER") "PROJECT_MANAGER"
                  developerPermissions Hres)).
Defined.

End PolicyFacts.

(** ** The README's guard against the evaluator *)

Module Agreement.
Import Express Rbac Policy Composer.

(** On its decision, [hasAnyPermission] is the evaluator's [AnyOf]: a
    request goes through the guard exactly when the evaluator allows the
    requirement the guard stands for, on a registry that gives the role
    the permissions of its entry. *)
Lemma hasAnyPermission_agrees (reg : Registry) userRole a req subj :
  reg !! name userRole = Some (list_to_set (permissions userRole)) ->
  hasAnyPermission userRole a req = Next req
  <-> evaluate reg (mkPrincipal subj (name userRole))
        (requirementOf (HasAnyPermission a)) = Allow.
Proof.
  intros Hres.
  rewrite (PolicyFacts.evaluate_resolved reg
             (mkPrincipal subj (name userRole)) _ _ Hres).
  unfold hasAnyPermission. rewrite RbacFacts.anyLoop_next. simpl.
  destruct (existsb _ _) eqn:E.
  - destruct (proj1 (PolicyFacts.any_flat_allow _ _ _) E) as (p & Hp & Hin).
    split; [reflexivity | intros _].
    exists p. split; [assumption | set_solver].
  - split; [| discriminate].
    intros (p & Hp & Hin). apply not_true_iff_false in E.
    exfalso. apply E. apply PolicyFacts.any_flat_allow.
    exists p. split; [assumption | set_solver].
Qed.

End Agreement.

(** ** More on the request pipeline of app.js *)

Module AppExtras.
Import Express App Rbac.

(** What the two [app.use] of [app.js] hand to the routes: the request
    with its body parsed and the mock user assigned. *)
Lemma dispatch_app parse routes req :
  dispatch (app parse routes) req
  = match parse (raw req) with
    | Some b =>
        dispatch routes {| raw := raw req; body := b; user := Some mockUser |}
    | None => Failed
    end.
Proof.
  unfold app; simpl. unfold jsonParser.
  destruct (parse (raw req)); reflexivity.
Qed.

(** X1: whatever [req.user] holds when a request comes in, [app.js]
    replaces it: the answer to a request does not depend on it, for any
    routes. *)
Theorem incoming_user_is_discarded parse routes req u :
  dispatch (app parse routes)
    {| raw := raw req; body := body req; user := u |}
  = dispatch (app parse routes) req.
Proof. rewrite !dispatch_app. reflexivity. Qed.

(** X2: a request whose body does not parse ends in the error handler;
    neither the mock authentication nor any route is called with it. *)
Theorem unparsed_body_reaches_nothing parse routes req :
  parse (raw req) = None ->
  dispatch (app parse routes) req = Failed
  /\ forall i r, ~ invoked (app parse routes) req (S i) r.
Proof.
  intros Hnone. split.
  - by rewrite dispatch_app, Hnone.
  - intros i r H. unfold app in H.
    inversion H as [| ? ? ? req' ? ? Hm _]; subst.
    unfold jsonParser in Hm. rewrite Hnone in Hm. discriminate.
Qed.

Lemma unparsed_body_reaches_nothing_witness :
  let parse := fun _ : string => (None : option (gmap string JS.value)) in
  let req := {| raw := "{title"; body := ∅; user := None |} in
  parse (raw req) = None
  /\ dispatch (app parse [hasAnyPermission developer (One "VIEW_PROJECT")]) req
     = Failed.
Proof.
  intros parse req. split; [reflexivity |].
  exact (proj1 (unparsed_body_reaches_nothing parse
                  [hasAnyPermission developer (One "VIEW_PROJECT")] req
                  eq_refl)).
Defined.

(** X3: the first route is called with the body as [express.json()]
    parsed it, the raw body as it came, and the mock user: the mock
    authentication changes nothing but [req.user]. *)
Theorem first_route_sees_parsed_body parse routes req r :
  invoked (app parse routes) req 2 r ->
  parse (raw req) = Some (body r)
  /\ raw r = raw req
  /\ user r = Some mockUser.
Proof.
  unfold app. intros H.
  inversion H as [| ? ? ? req0 ? ? Hj H1]; subst.
  inversion H1 as [| ? ? ? req1 ? ? Hm H2]; subst.
  inversion H2; subst.
  unfold jsonParser in Hj. destruct (parse (raw req)) as [b |] eqn:Hp;
    [| discriminate].
  injection Hj as <-. unfold mockAuth in Hm. injection Hm as <-.
  simpl. auto.
Qed.

Lemma first_route_sees_parsed_body_witness :
  let payload : gmap string JS.value := {[ "title" := JS.VStr "Updated Title" ]} in
  let parse := fun _ : string => Some payload in
  let routes := [hasAnyPermission developer (One "VIEW_PROJECT")] in
  let req := {| raw := "{}"; body := ∅; user := None |} in
  let seen := {| raw := "{}"; body := payload; user := Some mockUser |} in
  invoked (app parse routes) req 2 seen
  /\ parse (raw req) = Some (body seen).
Proof.
  intros payload parse routes req seen.
  assert (Hinv : invoked (app parse routes) req 2 seen).
  { eapply invoked_tail; [reflexivity |].
    eapply invoked_tail; [reflexivity |].
    apply invoked_head. }
  split; [exact Hinv |].
  exact (proj1 (first_route_sees_parsed_body parse routes req seen Hinv)).
Defined.

(** X4: [app.js] as it stands mounts no route.  No middleware of it
    answers a request: one whose body parses falls through both, one
    whose body does not parse ends in the error handler. *)
Theorem app_without_routes_answers_nothing parse req :
  dispatch (app parse []) req
  = match parse (raw req) with Some _ => Unhandled | None => Failed end
  /\ forall res, dispatch (app parse []) req <> Answered res.
Proof.
  rewrite dispatch_app. destruct (parse (raw req)); simpl;
    split; try reflexivity; discriminate.
Qed.

(** X5: a denying guard mounted first among the routes short-circuits
    them: the client gets the 403 answer and nothing mounted after the
    guard is called. *)
Theorem denied_request_reaches_no_handler parse userRole a rest req b :
  parse (raw req) = Some b ->
  (~ exists p, p ∈ toArray a /\ p ∈ permissions userRole) ->
  dispatch (app parse (hasAnyPermission userRole a :: rest)) req
  = Answered insufficient
  /\ forall i r,
       ~ invoked (app parse (hasAnyPermission userRole a :: rest)) req
           (3 + i) r.
Proof.
  intros Hp Hno.
  assert (Hdeny : forall q, hasAnyPermission userRole a q = Respond insufficient).
  { intros q. unfold hasAnyPermission.
    destruct (RbacFacts.anyLoop_cases userRole (toArray a) q) as [E | E];
      [| exact E].
    exfalso. apply Hno. by apply (RbacFacts.anyLoop_next userRole _ q). }
  split.
  - rewrite dispatch_app, Hp. simpl. by rewrite Hdeny.
  - intros i r H. unfold app in H.
    inversion H as [| ? ? ? ? ? ? _ H1]; subst.
    inversion H1 as [| ? ? ? ? ? ? _ H2]; subst.
    inversion H2 as [| ? ? ? ? ? ? Hg _]; subst.
    rewrite Hdeny in Hg. discriminate.
Qed.

Lemma denied_request_reaches_no_handler_witness :
  let parse := fun _ : string => Some (∅ : gmap string JS.value) in
  let req := {| raw := "{}"; body := ∅; user := None |} in
  let handler : Middleware := fun _ => Respond {| status := 201; json := ∅ |} in
  parse (raw req) = Some ∅
  /\ (~ exists p, p ∈ toArray (Many ["CREATE_PROJECT"; "MANAGE_TEAM"])
                 /\ p ∈ permissions developer)
  /\ dispatch
       (app parse
          [hasAnyPermission developer (Many ["CREATE_PROJECT"; "MANAGE_TEAM"]);
           handler]) req
     = Answered insufficient.
Proof.
  intros parse req handler.
  assert (Hno : ~ exists p, p ∈ toArray (Many ["CREATE_PROJECT"; "MANAGE_TEAM"])
                            /\ p ∈ permissions developer).
  { intros (p & Hp & Hin). simpl in Hp, Hin.
    set_solver. }
  split; [reflexivity |]. split; [exact Hno |].
  exact (proj1 (denied_request_reaches_no_handler parse developer
                  (Many ["CREATE_PROJECT"; "MANAGE_TEAM"]) [handler] req ∅
                  eq_refl Hno)).
Defined.

(** X6: an allowing guard mounted first among the routes is
    transparent: what follows it runs as it would without the guard, on
    the request with the parsed body and the mock user. *)
Theorem allowed_request_passes_unchanged parse userRole a rest req b :
  parse (raw req) = Some b ->
  (exists p, p ∈ toArray a /\ p ∈ permissions userRole) ->
  dispatch (app parse (hasAnyPermission userRole a :: rest)) req
  = dispatch rest {| raw := raw req; body := b; user := Some mockUser |}
  /\ dispatch (app parse (hasAnyPermission userRole a :: rest)) req
     = dispatch (app parse rest) req.
Proof.
  intros Hp Hyes. rewrite !dispatch_app, Hp. simpl.
  unfold hasAnyPermission.
  by rewrite (proj2 (RbacFacts.anyLoop_next userRole (toArray a) _) Hyes).
Qed.

Lemma allowed_request_passes_unchanged_witness :
  let parse := fun _ : string => Some (∅ : gmap string JS.value) in
  let req := {| raw := "{}"; body := ∅; user := None |} in
  let handler : Middleware := fun _ => Respond {| status := 200; json := ∅ |} in
  parse (raw req) = Some ∅
  /\ (exists p, p ∈ toArray (One "VIEW_PROJECT") /\ p ∈ permissions developer)
  /\ dispatch (app parse [hasAnyPermission developer (One "VIEW_PROJECT");
                          handler]) req
     = dispatch [handler] {| raw := "{}"; body := ∅; user := Some mockUser |}.
Proof.
  intros parse req handler.
  assert (Hyes : exists p, p ∈ toArray (One "VIEW_PROJECT")
                           /\ p ∈ permissions developer).
  { exists "VIEW_PROJECT". simpl. set_solver. }
  split; [reflexivity |]. split; [exact Hyes |].
  exact (proj1 (allowed_request_passes_unchanged parse developer
                  (One "VIEW_PROJECT") [handler] req ∅ eq_refl Hyes)).
Defined.

End AppExtras.

(** ** More on hasAnyPermission *)

Module RbacExtras.
Import Express Rbac.

(** The loop, in closed form. *)
Lemma anyLoop_existsb userRole ps req :
  anyLoop userRole ps req
  = if existsb (includes (permissions userRole)) ps
    then Next req else Respond insufficient.
Proof.
  induction ps as [| p ps IH]; simpl; [reflexivity |].
  destruct (includes (permissions userRole) p); [reflexivity | exact IH].
Qed.

Lemma existsb_includes perms ps :
  existsb (includes perms) ps = true <-> exists p, p ∈ ps /\ p ∈ perms.
Proof.
  rewrite existsb_exists. split.
  - intros (p & Hp & Hin). exists p.
    split; [by apply list_elem_of_In | by apply RbacFacts.includes_elem_of].
  - intros (p & Hp & Hin). exists p.
    split; [by apply list_elem_of_In | by apply RbacFacts.includes_elem_of].
Qed.

(** X7: the guard looks at the candidates and at the role's permissions
    as sets: order and repetitions change nothing.  Two guards whose
    candidate arrays have the same elements, for two role entries whose
    permission arrays have the same elements, treat every request the
    same. *)
Theorem hasAnyPermission_order_irrelevant userRole userRole' ps ps' req :
  (forall p, p ∈ ps <-> p ∈ ps') ->
  (forall p, p ∈ permissions userRole <-> p ∈ permissions userRole') ->
  hasAnyPermission userRole (Many ps) req
  = hasAnyPermission userRole' (Many ps') req.
Proof.
  intros Hps Hperms. unfold hasAnyPermission; simpl.
  rewrite !anyLoop_existsb.
  destruct (existsb (includes (permissions userRole)) ps) eqn:E1,
           (existsb (includes (permissions userRole')) ps') eqn:E2;
    try reflexivity; exfalso.
  - apply not_true_iff_false in E2. apply E2. apply existsb_includes.
    destruct (proj1 (existsb_includes _ _) E1) as (p & Hp & Hin).
    exists p. split; [by apply Hps | by apply Hperms].
  - apply not_true_iff_false in E1. apply E1. apply existsb_includes.
    destruct (proj1 (existsb_includes _ _) E2) as (p & Hp & Hin).
    exists p. split; [by apply Hps | by apply Hperms].
Qed.

Lemma hasAnyPermission_order_irrelevant_witness :
  let ps := ["VIEW_TASK"; "MANAGE_TEAM"] in
  let ps' := ["MANAGE_TEAM"; "VIEW_TASK"; "MANAGE_TEAM"] in
  let req := {| raw := "{}"; body := ∅; user := None |} in
  (forall p, p ∈ ps <-> p ∈ ps')
  /\ (forall p, p ∈ permissions developer <-> p ∈ permissions developer)
  /\ hasAnyPermission developer (Many ps) req
     = hasAnyPermission developer (Many ps') req.
Proof.
  intros ps ps' req.
  assert (Hps : forall p, p ∈ ps <-> p ∈ ps') by (intros p; set_solver).
  assert (Hperms : forall p, p ∈ permissions developer
                             <-> p ∈ permissions developer) by tauto.
  split; [exact Hps |]. split; [exact Hperms |].
  exact (hasAnyPermission_order_irrelevant developer developer ps ps' req
           Hps Hperms).
Defined.

(** X8: a guard on the concatenation of two candidate arrays is the
    disjunction of the guards on each: it lets the request through when
    the first does, and otherwise does what the second does. *)
Theorem hasAnyPermission_app userRole ps1 ps2 req :
  hasAnyPermission userRole (Many (ps1 ++ ps2)) req
  = match hasAnyPermission userRole (Many ps1) req with
    | Next r => Next r
    | _ => hasAnyPermission userRole (Many ps2) req
    end.
Proof.
  unfold hasAnyPermission; simpl.
  induction ps1 as [| p ps1 IH]; simpl; [reflexivity |].
  destruct (includes (permissions userRole) p); [reflexivity | exact IH].
Qed.

(** X9: the guard is monotone.  A request that passes still passes when
    candidates are added to the guard and when permissions are added to
    the role. *)
Theorem hasAnyPermission_monotone userRole userRole' a a' req :
  (forall p, p ∈ toArray a -> p ∈ toArray a') ->
  (forall p, p ∈ permissions userRole -> p ∈ permissions userRole') ->
  hasAnyPermission userRole a req = Next req ->
  hasAnyPermission userRole' a' req = Next req.
Proof.
  intros Ha Hperms. unfold hasAnyPermission.
  rewrite !RbacFacts.anyLoop_next.
  intros (p & Hp & Hin). exists p. auto.
Qed.

Lemma hasAnyPermission_monotone_witness :
  let lead := {| name := "TEAM_LEAD";
                 permissions := "CREATE_TASK" :: permissions developer |} in
  let req := {| raw := "{}"; body := ∅; user := None |} in
  (forall p, p ∈ toArray (One "VIEW_TASK")
             -> p ∈ toArray (Many ["VIEW_TASK"; "CREATE_TASK"]))
  /\ (forall p, p ∈ permissions developer -> p ∈ permissions lead)
  /\ hasAnyPermission developer (One "VIEW_TASK") req = Next req
  /\ hasAnyPermission lead (Many ["VIEW_TASK"; "CREATE_TASK"]) req = Next req.
Proof.
  intros lead req.
  assert (Ha : forall p, p ∈ toArray (One "VIEW_TASK")
                         -> p ∈ toArray (Many ["VIEW_TASK"; "CREATE_TASK"]))
    by (intros p; simpl; set_solver).
  assert (Hperms : forall p, p ∈ permissions developer -> p ∈ permissions lead)
    by (intros p Hp; simpl; by right).
  split; [exact Ha |]. split; [exact Hperms |]. split; [reflexivity |].
  exact (hasAnyPermission_monotone developer lead (One "VIEW_TASK")
           (Many ["VIEW_TASK"; "CREATE_TASK"]) req Ha Hperms eq_refl).
Defined.

(** X10: mounting the guards [hasAnyPermission(p1)], ...,
    [hasAnyPermission(pn)] one after the other requires all of the
    permissions: what follows them runs, on the same request, if the
    role holds every one of them; otherwise the client gets the 403
    answer. *)
Theorem stacked_guards_require_all userRole ps rest req :
  dispatch (map (fun p => hasAnyPermission userRole (One p)) ps ++ rest) req
  = if forallb (includes (permissions userRole)) ps
    then dispatch rest req
    else Answered insufficient.
Proof.
  induction ps as [| p ps IH]; simpl; [reflexivity |].
  unfold hasAnyPermission at 1; simpl.
  destruct (includes (permissions userRole) p); simpl; [exact IH | reflexivity].
Qed.

(** X11: for a given role entry the guard decides without reading the
    request: any two requests get the same decision, and the one that
    passes is handed on as it is. *)
Theorem hasAnyPermission_ignores_request userRole a req1 req2 :
  (hasAnyPermission userRole a req1 = Next req1
   <-> hasAnyPermission userRole a req2 = Next req2)
  /\ (hasAnyPermission userRole a req1 = Respond insufficient
      <-> hasAnyPermission userRole a req2 = Respond insufficient)
  /\ (forall r, hasAnyPermission userRole a req1 = Next r -> r = req1).
Proof.
  unfold hasAnyPermission. rewrite !anyLoop_existsb.
  destruct (existsb _ _); repeat split; try discriminate; try reflexivity;
    by intros ? [= <-].
Qed.

(** X12: a role entry with an empty permission array is denied by every
    guard. *)
Theorem no_permissions_always_denied userRole a req :
  permissions userRole = [] ->
  hasAnyPermission userRole a req = Respond insufficient.
Proof.
  intros Hnil. unfold hasAnyPermission. rewrite anyLoop_existsb.
  destruct (existsb _ _) eqn:E; [| reflexivity].
  apply existsb_includes in E. destruct E as (p & _ & Hin).
  rewrite Hnil in Hin. inversion Hin.
Qed.

Lemma no_permissions_always_denied_witness :
  let guest := {| name := "GUEST"; permissions := [] |} in
  permissions guest = []
  /\ hasAnyPermission guest (Many ["VIEW_PROJECT"; "VIEW_TASK"])
       {| raw := "{}"; body := ∅; user := None |}
     = Respond insufficient.
Proof.
  intros guest. split; [reflexivity |].
  exact (no_permissions_always_denied guest
           (Many ["VIEW_PROJECT"; "VIEW_TASK"])
           {| raw := "{}"; body := ∅; user := None |} eq_refl).
Defined.

End RbacExtras.

(** ** More on the guard of the update route *)

Module ComposerExtras.
Import Express Rbac.

(** The values an [if] takes for false. *)
Lemma truthy_false_iff v :
  JS.truthy v = false
  <-> v = JS.VUndefined \/ v = JS.VNull \/ v = JS.VBool false
      \/ (exists s, v = JS.VNum (S754_zero s)) \/ v = JS.VNum S754_nan
      \/ v = JS.VStr EmptyString.
Proof.
  split.
  - destruct v as [| | [] | [] | [] | |]; simpl; try discriminate; eauto 10.
  - intros [-> | [-> | [-> | [[s ->] | [-> | ->]]]]]; reflexivity.
Qed.

(** X13: the selection reads nothing of the request but the field
    [teamMembers] of its body: two requests that agree on it get the
    same guard, whatever their other fields and whoever their user. *)
Theorem updateGuard_reads_only_teamMembers req1 req2 :
  body req1 !! "teamMembers" = body req2 !! "teamMembers" ->
  updateGuard req1 = updateGuard req2.
Proof. intros H. unfold updateGuard, JS.get. by rewrite H. Qed.

Lemma updateGuard_reads_only_teamMembers_witness :
  let req1 := {| raw := "{}"; body := Composer.regularUpdate; user := None |} in
  let req2 := {| raw := "{}";
                 body := {[ "description" := JS.VStr "New";
                            "members" := JS.VArr [JS.VStr "userId1"] ]};
                 user := Some App.mockUser |} in
  body req1 !! "teamMembers" = body req2 !! "teamMembers"
  /\ updateGuard req1 = updateGuard req2.
Proof.
  intros req1 req2.
  assert (H : body req1 !! "teamMembers" = body req2 !! "teamMembers")
    by reflexivity.
  split; [exact H |].
  exact (updateGuard_reads_only_teamMembers req1 req2 H).
Defined.

(** X14: the update is guarded by UPDATE_PROJECT alone exactly when the
    body has no field [teamMembers] or the field holds [null], [false],
    zero, [NaN] or the empty string; for every other body (arrays and
    objects, empty or not, among them) it is guarded by both
    UPDATE_PROJECT and MANAGE_TEAM. *)
Theorem updateGuard_single_iff req :
  (updateGuard req = HasPermission "UPDATE_PROJECT"
   <-> body req !! "teamMembers" = None
       \/ exists v, body req !! "teamMembers" = Some v
                    /\ (v = JS.VUndefined \/ v = JS.VNull \/ v = JS.VBool false
                        \/ (exists s, v = JS.VNum (S754_zero s))
                        \/ v = JS.VNum S754_nan
                        \/ v = JS.VStr EmptyString))
  /\ (updateGuard req = HasPermission "UPDATE_PROJECT"
      \/ updateGuard req = HasAllPermissions ["UPDATE_PROJECT"; "MANAGE_TEAM"])
  /\ (forall l,
        updateGuard
          (set_body (<[ "teamMembers" := JS.VArr l ]> (body req)) req)
        = HasAllPermissions ["UPDATE_PROJECT"; "MANAGE_TEAM"]).
Proof.
  split; [| split].
  - unfold updateGuard, JS.get.
    destruct (body req !! "teamMembers") as [v |] eqn:Hv; simpl.
    + destruct (JS.truthy v) eqn:Ht.
      * split; [discriminate |].
        intros [? | (v' & [= <-] & Hf)]; [discriminate |].
        apply truthy_false_iff in Hf. congruence.
      * split; [| reflexivity]. intros _. right. exists v.
        split; [reflexivity | by apply truthy_false_iff].
    + split; [by left | reflexivity].
  - unfold updateGuard. destruct (JS.truthy _); [by right | by left].
  - intros l. unfold updateGuard, JS.get; simpl.
    by rewrite lookup_insert_eq.
Qed.

End ComposerExtras.

(** ** Requests that arrive without a principal *)

Module AbsentPrincipal.
Import Express App.




End AbsentPrincipal.
